(** * go-ds-mongo: the transaction wrapper of [txn.go]

    A shallow embedding of [mongoTxn] and of the factory [newTransaction].
    The wrapper talks to two collaborators that live outside [txn.go]: the
    mongo driver session ([StartSession], [StartTransaction],
    [CommitTransaction], [AbortTransaction], [EndSession]) and the store's
    own [get]/[has]/[getSize]/[query]/[delete]/[put].  Both are taken as an
    oracle [remote]; every call the wrapper makes is appended, with its
    arguments and its answer, to a trace that is threaded through the code
    by a small state monad. *)

From Stdlib Require Import String List ZArith Bool Arith Lia.
Import ListNotations.
Local Open Scope string_scope.
Local Open Scope list_scope.

(** ** Data *)

(** [time.Duration]: a signed count of nanoseconds. *)
Definition duration := Z.

(** [mongo.Session]: an opaque handle to a driver session. *)
Definition Session := nat.

(** [datastore.Key], [[]byte] (with [None] for the nil slice),
    [query.Query] and [query.Results] are opaque to the wrapper. *)
Definition Key := string.
Definition bytes := option (list Byte.byte).
Definition Query_t := nat.
Definition Results := nat.

(** [dsextensions.QueryExt]: a [query.Query] with a seek prefix. *)
Record QueryExt := mkQueryExt { Query_of : Query_t; SeekPrefix : string }.

(** [context.Context], kept symbolic: what a call receives is visible in
    the trace.  [Opaque n] stands for any context a caller may hold. *)
Inductive context :=
| Background
| Opaque (n : nat)
| WithTimeout (parent : context) (d : duration)
| NewSessionContext (parent : context) (s : Session).

(** Modelled from the spec: [ErrClosed], the store-closed sentinel, is
    declared outside [txn.go]; it is a value of its own, different from
    [ErrTxnFinalized], which [txn.go] creates with [errors.New].
    [Errorf f e] is the fresh error [fmt.Errorf(f, e)] and [DriverError] is
    whatever the driver or the store reports.  A nil error is [None]. *)
Inductive error :=
| ErrTxnFinalized
| ErrClosed
| Errorf (format : string) (arg : error)
| DriverError (msg : string).

(** Modelled from the spec: the struct [MongoDS] is declared outside
    [txn.go]; these are the fields [txn.go] reads (the shutdown flag and
    the two configured timeouts). *)
Record MongoDS := mkMongoDS {
  closed : bool;
  txnTimeout : duration;
  opTimeout : duration
}.

Record mongoTxn := mkMongoTxn {
  finalized : bool;
  m : MongoDS;
  session : Session;
  ctx : context
}.

Definition set_finalized (b : bool) (t : mongoTxn) : mongoTxn :=
  {| finalized := b; m := m t; session := session t; ctx := ctx t |}.

(** ** Calls that leave the wrapper *)

Inductive event :=
| EvStartSession (r : Session * option error)
| EvStartTransaction (s : Session) (r : option error)
| EvCommitTransaction (s : Session) (c : context) (r : option error)
| EvAbortTransaction (s : Session) (c : context) (r : option error)
| EvEndSession (s : Session) (c : context) (ok : bool)
| EvGet (c : context) (k : Key) (r : bytes * option error)
| EvHas (c : context) (k : Key) (r : bool * option error)
| EvGetSize (c : context) (k : Key) (r : Z * option error)
| EvQuery (c : context) (q : QueryExt) (r : option Results * option error)
| EvDelete (c : context) (k : Key) (r : option error)
| EvPut (c : context) (k : Key) (v : bytes) (r : option error)
| EvLogErrorf (format : string) (arg : error).

Definition trace := list event.

(** Logging is local; every other event is a call to the driver or to the
    store. *)
Definition is_remote (e : event) : bool :=
  match e with
  | EvLogErrorf _ _ => false
  | _ => true
  end.

(** The collaborators: the driver's session methods and the store's own
    [get], [has], [getSize], [query], [delete] and [put], none of which is
    part of [txn.go].  Each answer may depend on everything that happened
    before.  [end_session_ok] is the fate of an [EndSession] call, which
    the Go method does not return. *)
Record remote := mkRemote {
  start_session : trace -> Session * option error;
  start_transaction : trace -> Session -> option error;
  commit_transaction : trace -> Session -> context -> option error;
  abort_transaction : trace -> Session -> context -> option error;
  end_session_ok : trace -> Session -> context -> bool;
  ds_get : trace -> context -> Key -> bytes * option error;
  ds_has : trace -> context -> Key -> bool * option error;
  ds_getSize : trace -> context -> Key -> Z * option error;
  ds_query : trace -> context -> QueryExt -> option Results * option error;
  ds_delete : trace -> context -> Key -> option error;
  ds_put : trace -> context -> Key -> bytes -> option error
}.

(** ** The trace monad *)

Definition Remote (A : Type) := trace -> A * trace.

Definition ret {A} (a : A) : Remote A := fun tr => (a, tr).

Definition bind {A B} (c : Remote A) (k : A -> Remote B) : Remote B :=
  fun tr => let (a, tr') := c tr in k a tr'.

Declare Scope remote_scope.
Delimit Scope remote_scope with remote.
Notation "x <- c ;; k" := (bind c (fun x => k))
  (at level 61, c at next level, right associativity) : remote_scope.
Notation "c ;; k" := (bind c (fun _ => k))
  (at level 61, right associativity) : remote_scope.
Local Open Scope remote_scope.

(** [ask f ev] asks the collaborator and records question and answer. *)
Definition ask {A} (f : trace -> A) (ev : A -> event) : Remote A :=
  fun tr => let r := f tr in (r, tr ++ [ev r]).

Definition tell (ev : event) : Remote unit :=
  fun tr => (tt, tr ++ [ev]).

Section Wrapper.

Variable env : remote.

(** *** Driver and store calls *)

Definition StartSession : Remote (Session * option error) :=
  ask (start_session env) EvStartSession.

Definition StartTransaction (s : Session) : Remote (option error) :=
  ask (fun tr => start_transaction env tr s) (EvStartTransaction s).

Definition CommitTransaction (s : Session) (c : context) : Remote (option error) :=
  ask (fun tr => commit_transaction env tr s c) (EvCommitTransaction s c).

Definition AbortTransaction (s : Session) (c : context) : Remote (option error) :=
  ask (fun tr => abort_transaction env tr s c) (EvAbortTransaction s c).

Definition EndSession (s : Session) (c : context) : Remote unit :=
  _ <- ask (fun tr => end_session_ok env tr s c) (EvEndSession s c) ;;
  ret tt.

Definition log_Errorf (format : string) (arg : error) : Remote unit :=
  tell (EvLogErrorf format arg).

Definition get (c : context) (k : Key) : Remote (bytes * option error) :=
  ask (fun tr => ds_get env tr c k) (EvGet c k).

Definition has (c : context) (k : Key) : Remote (bool * option error) :=
  ask (fun tr => ds_has env tr c k) (EvHas c k).

Definition getSize (c : context) (k : Key) : Remote (Z * option error) :=
  ask (fun tr => ds_getSize env tr c k) (EvGetSize c k).

Definition query (c : context) (q : QueryExt) : Remote (option Results * option error) :=
  ask (fun tr => ds_query env tr c q) (EvQuery c q).

Definition delete (c : context) (k : Key) : Remote (option error) :=
  ask (fun tr => ds_delete env tr c k) (EvDelete c k).

Definition put (c : context) (k : Key) (v : bytes) : Remote (option error) :=
  ask (fun tr => ds_put env tr c k v) (EvPut c k v).

(** *** The factory *)

Definition newTransaction (ds : MongoDS) (_ : bool)
  : Remote (option mongoTxn * option error) :=
  if closed ds then ret (None, Some ErrClosed)
  else
    r <- StartSession ;;
    let (s, err) := r in
    match err with
    | Some e => ret (None, Some (Errorf "starting mongo session: %s" e))
    | None =>
      err <- StartTransaction s ;;
      match err with
      | Some e => ret (None, Some (Errorf "starting session txn: %s" e))
      | None =>
        ret (Some {| finalized := false;
                     m := ds;
                     session := s;
                     ctx := NewSessionContext Background s |},
             None)
      end
    end.

Definition NewTransaction (ds : MongoDS) (_ : context) (readOnly : bool)
  : Remote (option mongoTxn * option error) :=
  newTransaction ds readOnly.

Definition NewTransactionExtended (ds : MongoDS) (readOnly : bool)
  : Remote (option mongoTxn * option error) :=
  newTransaction ds readOnly.

(** *** The wrapper's methods

    Every method holds [t.lock] from its first statement to its return;
    here a method is one uninterrupted run.  A method that assigns to the
    receiver returns the receiver next to its result. *)

Definition Commit (t : mongoTxn) (c : context)
  : Remote (option error * mongoTxn) :=
  if finalized t then ret (Some ErrTxnFinalized, t)
  else
    let ctx1 := WithTimeout c (txnTimeout (m t)) in
    err <- CommitTransaction (session t) ctx1 ;;
    match err with
    | Some e => ret (Some (Errorf "commiting session txn: %s" e), t)
    | None =>
      let t := set_finalized true t in
      let ctx1 := WithTimeout c (opTimeout (m t)) in
      EndSession (session t) ctx1 ;;
      ret (None, t)
    end.

Definition Discard (t : mongoTxn) (c : context) : Remote (unit * mongoTxn) :=
  if finalized t then ret (tt, t)
  else
    let ctx1 := WithTimeout c (txnTimeout (m t)) in
    err <- AbortTransaction (session t) ctx1 ;;
    match err with
    | Some e => log_Errorf "aborting transaction: %s" e
    | None => ret tt
    end ;;
    let ctx1 := WithTimeout c (opTimeout (m t)) in
    EndSession (session t) ctx1 ;;
    ret (tt, t).

Definition Get (t : mongoTxn) (c : context) (k : Key)
  : Remote (bytes * option error) :=
  if finalized t then ret (None, Some ErrTxnFinalized)
  else get c k.

Definition Has (t : mongoTxn) (c : context) (k : Key)
  : Remote (bool * option error) :=
  if finalized t then ret (false, Some ErrTxnFinalized)
  else has c k.

Definition GetSize (t : mongoTxn) (c : context) (k : Key)
  : Remote (Z * option error) :=
  if finalized t then ret (0%Z, Some ErrTxnFinalized)
  else getSize c k.

Definition Query (t : mongoTxn) (c : context) (q : Query_t)
  : Remote (option Results * option error) :=
  if finalized t then ret (None, Some ErrTxnFinalized)
  else
    let qe := {| Query_of := q; SeekPrefix := "" |} in
    query c qe.

Definition QueryExtended (t : mongoTxn) (q : QueryExt)
  : Remote (option Results * option error) :=
  if finalized t then ret (None, Some ErrTxnFinalized)
  else query (ctx t) q.

Definition Delete (t : mongoTxn) (c : context) (k : Key)
  : Remote (option error) :=
  if finalized t then ret (Some ErrClosed)
  else delete c k.

Definition Put (t : mongoTxn) (c : context) (k : Key) (v : bytes)
  : Remote (option error) :=
  if finalized t then ret (Some ErrClosed)
  else put c k v.

End Wrapper.

(** ** Calls as data

    A caller's request and what it gets back, so that sequences of calls
    and goroutines can be described. *)

Inductive call :=
| CallCommit (c : context)
| CallDiscard (c : context)
| CallGet (c : context) (k : Key)
| CallHas (c : context) (k : Key)
| CallGetSize (c : context) (k : Key)
| CallQuery (c : context) (q : Query_t)
| CallQueryExtended (q : QueryExt)
| CallDelete (c : context) (k : Key)
| CallPut (c : context) (k : Key) (v : bytes).

Inductive answer :=
| RetCommit (err : option error)
| RetDiscard
| RetGet (r : bytes * option error)
| RetHas (r : bool * option error)
| RetGetSize (r : Z * option error)
| RetQuery (r : option Results * option error)
| RetDelete (err : option error)
| RetPut (err : option error).

(** The error a caller sees; [Discard] returns nothing. *)
Definition error_of (a : answer) : option error :=
  match a with
  | RetCommit err | RetDelete err | RetPut err => err
  | RetDiscard => None
  | RetGet (_, err) => err
  | RetHas (_, err) => err
  | RetGetSize (_, err) => err
  | RetQuery (_, err) => err
  end.

Definition invoke (env : remote) (t : mongoTxn) (op : call)
  : Remote (answer * mongoTxn) :=
  match op with
  | CallCommit c => r <- Commit env t c ;; ret (RetCommit (fst r), snd r)
  | CallDiscard c => r <- Discard env t c ;; ret (RetDiscard, snd r)
  | CallGet c k => r <- Get env t c k ;; ret (RetGet r, t)
  | CallHas c k => r <- Has env t c k ;; ret (RetHas r, t)
  | CallGetSize c k => r <- GetSize env t c k ;; ret (RetGetSize r, t)
  | CallQuery c q => r <- Query env t c q ;; ret (RetQuery r, t)
  | CallQueryExtended q => r <- QueryExtended env t q ;; ret (RetQuery r, t)
  | CallDelete c k => r <- Delete env t c k ;; ret (RetDelete r, t)
  | CallPut c k v => r <- Put env t c k v ;; ret (RetPut r, t)
  end.

(** Calls issued one after the other by a single caller. *)
Fixpoint invoke_all (env : remote) (t : mongoTxn) (ops : list call)
  : Remote (list answer * mongoTxn) :=
  match ops with
  | [] => ret ([], t)
  | op :: ops' =>
    r <- invoke env t op ;;
    rs <- invoke_all env (snd r) ops' ;;
    ret (fst r :: fst rs, snd rs)
  end.

(** ** Goroutines sharing one wrapper

    Every method begins with [t.lock.Lock()] and [defer t.lock.Unlock()]:
    a goroutine first waits for the mutex, then runs the method's body
    while holding it, and the deferred unlock runs as the method returns. *)

Inductive goroutine :=
| Waiting (op : call)
| Holding (op : call)
| Leaving (a : answer)
| Returned (a : answer).

Record system := mkSystem {
  lock : bool;
  obj : mongoTxn;
  world : trace;
  goroutines : list goroutine
}.

Fixpoint set_nth {A} (i : nat) (x : A) (l : list A) : list A :=
  match l, i with
  | [], _ => []
  | _ :: l', O => x :: l'
  | y :: l', S i' => y :: set_nth i' x l'
  end.

(** Goroutine [i] takes its next step, if it can: [Lock] succeeds only on
    a free mutex; the holder runs the body on the shared wrapper; the
    deferred [Unlock] frees the mutex. *)
Definition step (env : remote) (i : nat) (s : system) : option system :=
  match nth_error (goroutines s) i with
  | Some (Waiting op) =>
    if lock s then None
    else Some {| lock := true; obj := obj s; world := world s;
                 goroutines := set_nth i (Holding op) (goroutines s) |}
  | Some (Holding op) =>
    let (r, tr) := invoke env (obj s) op (world s) in
    Some {| lock := lock s; obj := snd r; world := tr;
            goroutines := set_nth i (Leaving (fst r)) (goroutines s) |}
  | Some (Leaving a) =>
    Some {| lock := false; obj := obj s; world := world s;
            goroutines := set_nth i (Returned a) (goroutines s) |}
  | _ => None
  end.

(** A schedule names the goroutine that moves next. *)
Fixpoint run_schedule (env : remote) (sched : list nat) (s : system)
  : option system :=
  match sched with
  | [] => Some s
  | i :: sched' =>
    match step env i s with
    | Some s' => run_schedule env sched' s'
    | None => None
    end
  end.

Definition is_holding (g : goroutine) : bool :=
  match g with
  | Holding _ | Leaving _ => true
  | _ => false
  end.

(** Number of goroutines between [Lock] and [Unlock]. *)
Definition inside (s : system) : nat :=
  length (filter is_holding (goroutines s)).

Definition spawn (t : mongoTxn) (tr : trace) (ops : list call) : system :=
  {| lock := false; obj := t; world := tr; goroutines := map Waiting ops |}.

(** The mutex is held exactly when one goroutine is inside a method. *)
Definition lock_inv (s : system) : Prop := inside s = Nat.b2n (lock s).

(** ** Concrete collaborators *)

(** Some error reported by the driver. *)
Definition driver_error : error := DriverError "remote error".

(** Every call succeeds; the driver hands out session 7. *)
Definition env_ok : remote :=
  {| start_session := fun _ => (7, None);
     start_transaction := fun _ _ => None;
     commit_transaction := fun _ _ _ => None;
     abort_transaction := fun _ _ _ => None;
     end_session_ok := fun _ _ _ => true;
     ds_get := fun _ _ _ => (Some [], None);
     ds_has := fun _ _ _ => (true, None);
     ds_getSize := fun _ _ _ => (0%Z, None);
     ds_query := fun _ _ _ => (Some 0, None);
     ds_delete := fun _ _ _ => None;
     ds_put := fun _ _ _ _ => None |}.

Definition is_commit (e : event) : bool :=
  match e with
  | EvCommitTransaction _ _ _ => true
  | _ => false
  end.

(** The first commit is refused, later ones go through; ending a session
    never works. *)
Definition env_commit_fails_once : remote :=
  {| start_session := start_session env_ok;
     start_transaction := start_transaction env_ok;
     commit_transaction := fun tr _ _ =>
       if existsb is_commit tr then None else Some driver_error;
     abort_transaction := abort_transaction env_ok;
     end_session_ok := fun _ _ _ => false;
     ds_get := ds_get env_ok;
     ds_has := ds_has env_ok;
     ds_getSize := ds_getSize env_ok;
     ds_query := ds_query env_ok;
     ds_delete := ds_delete env_ok;
     ds_put := ds_put env_ok |}.

(** Sessions start, transactions do not. *)
Definition env_txn_refused : remote :=
  {| start_session := start_session env_ok;
     start_transaction := fun _ _ => Some driver_error;
     commit_transaction := commit_transaction env_ok;
     abort_transaction := abort_transaction env_ok;
     end_session_ok := end_session_ok env_ok;
     ds_get := ds_get env_ok;
     ds_has := ds_has env_ok;
     ds_getSize := ds_getSize env_ok;
     ds_query := ds_query env_ok;
     ds_delete := ds_delete env_ok;
     ds_put := ds_put env_ok |}.

Definition ds0 : MongoDS :=
  {| closed := false; txnTimeout := 30000000000%Z; opTimeout := 10000000000%Z |}.

(** The wrapper [newTransaction] builds on [ds0] when all goes well. *)
Definition txn0 : mongoTxn :=
  {| finalized := false; m := ds0; session := 7;
     ctx := NewSessionContext Background 7 |}.

Definition caller_ctx : context := Opaque 0.

(** [txn0] once committed. *)
Definition txn_done : mongoTxn := set_finalized true txn0.

Definition is_end_session (e : event) : bool :=
  match e with
  | EvEndSession _ _ _ => true
  | _ => false
  end.

(** What one [Discard] of [txn0] sends to a driver that accepts it. *)
Definition discard_calls : trace :=
  [EvAbortTransaction 7 (WithTimeout caller_ctx (txnTimeout ds0)) None;
   EvEndSession 7 (WithTimeout caller_ctx (opTimeout ds0)) true].

(** What one successful [Commit] of [txn0] sends. *)
Definition commit_calls : trace :=
  [EvCommitTransaction 7 (WithTimeout caller_ctx (txnTimeout ds0)) None;
   EvEndSession 7 (WithTimeout caller_ctx (opTimeout ds0)) true].

Definition qe0 : QueryExt := {| Query_of := 3; SeekPrefix := "p" |}.

(** What a [Commit] of [txn0] leaves behind when the driver refuses it. *)
Definition refused_once : trace :=
  [EvCommitTransaction 7 (WithTimeout caller_ctx (txnTimeout ds0))
     (Some driver_error)].

(** ** Reading answers, traces and goroutines *)

(** What each method returns from its [if t.finalized] branch. *)
Definition refusal (op : call) : answer :=
  match op with
  | CallCommit _ => RetCommit (Some ErrTxnFinalized)
  | CallDiscard _ => RetDiscard
  | CallGet _ _ => RetGet (None, Some ErrTxnFinalized)
  | CallHas _ _ => RetHas (false, Some ErrTxnFinalized)
  | CallGetSize _ _ => RetGetSize (0%Z, Some ErrTxnFinalized)
  | CallQuery _ _ => RetQuery (None, Some ErrTxnFinalized)
  | CallQueryExtended _ => RetQuery (None, Some ErrTxnFinalized)
  | CallDelete _ _ => RetDelete (Some ErrClosed)
  | CallPut _ _ _ => RetPut (Some ErrClosed)
  end.



(** An event a wrapper on session [s] may cause: nothing that starts a
    session or a transaction, and no driver call about another session. *)
Definition own_event (s : Session) (e : event) : bool :=
  match e with
  | EvStartSession _ | EvStartTransaction _ _ => false
  | EvCommitTransaction s' _ _ | EvAbortTransaction s' _ _
  | EvEndSession s' _ _ => Nat.eqb s' s
  | _ => true
  end.

Definition result_of (g : goroutine) : option answer :=
  match g with
  | Leaving a | Returned a => Some a
  | _ => None
  end.

Definition pending_of (g : goroutine) : option call :=
  match g with
  | Waiting op | Holding op => Some op
  | _ => None
  end.

Definition result_at (s : system) (i : nat) : option answer :=
  match nth_error (goroutines s) i with
  | Some g => result_of g
  | None => None
  end.






(** On a wrapper [t] that is finalized from the start: nothing is sent, and
    a goroutine spawned with [op] either still has to run it or holds its
    refusal. *)
Definition refused_inv (t : mongoTxn) (tr : trace) (ops : list call)
  (s : system) : Prop :=
  obj s = t /\ world s = tr /\
  forall i g, nth_error (goroutines s) i = Some g ->
    exists op, nth_error ops i = Some op /\
      (pending_of g = Some op \/ result_of g = Some (refusal op)).

(** The driver refuses to abort. *)
Definition env_abort_refused : remote :=
  {| start_session := start_session env_ok;
     start_transaction := start_transaction env_ok;
     commit_transaction := commit_transaction env_ok;
     abort_transaction := fun _ _ _ => Some driver_error;
     end_session_ok := end_session_ok env_ok;
     ds_get := ds_get env_ok;
     ds_has := ds_has env_ok;
     ds_getSize := ds_getSize env_ok;
     ds_query := ds_query env_ok;
     ds_delete := ds_delete env_ok;
     ds_put := ds_put env_ok |}.

(** Three goroutines on [txn0]: a write, a commit and a read. *)
Definition three_calls : list call :=
  [CallPut caller_ctx "a" None; CallCommit caller_ctx; CallGet caller_ctx "a"].





(** * Properties *)

Ltac unfold_calls :=
  unfold Commit, Discard, Get, Has, GetSize, Query, QueryExtended, Delete, Put,
    newTransaction, NewTransaction, NewTransactionExtended,
    StartSession, StartTransaction, CommitTransaction, AbortTransaction,
    EndSession, log_Errorf, get, has, getSize, query, delete, put,
    ask, tell, bind, ret.

Ltac run := unfold invoke; unfold_calls; cbn.

(** ** A finalized wrapper is inert *)

Section Finalized.

Variable env : remote.
Variable t : mongoTxn.
Hypothesis Hfin : finalized t = true.

Lemma Commit_finalized c tr :
  Commit env t c tr = ((Some ErrTxnFinalized, t), tr).
Proof. unfold Commit. rewrite Hfin. reflexivity. Qed.

Lemma Discard_finalized c tr :
  Discard env t c tr = ((tt, t), tr).
Proof. unfold Discard. rewrite Hfin. reflexivity. Qed.

Lemma Get_finalized c k tr :
  Get env t c k tr = ((None, Some ErrTxnFinalized), tr).
Proof. unfold Get. rewrite Hfin. reflexivity. Qed.

Lemma Has_finalized c k tr :
  Has env t c k tr = ((false, Some ErrTxnFinalized), tr).
Proof. unfold Has. rewrite Hfin. reflexivity. Qed.

Lemma GetSize_finalized c k tr :
  GetSize env t c k tr = ((0%Z, Some ErrTxnFinalized), tr).
Proof. unfold GetSize. rewrite Hfin. reflexivity. Qed.

Lemma Query_finalized c q tr :
  Query env t c q tr = ((None, Some ErrTxnFinalized), tr).
Proof. unfold Query. rewrite Hfin. reflexivity. Qed.

Lemma QueryExtended_finalized q tr :
  QueryExtended env t q tr = ((None, Some ErrTxnFinalized), tr).
Proof. unfold QueryExtended. rewrite Hfin. reflexivity. Qed.

Lemma Delete_finalized c k tr :
  Delete env t c k tr = (Some ErrClosed, tr).
Proof. unfold Delete. rewrite Hfin. reflexivity. Qed.

Lemma Put_finalized c k v tr :
  Put env t c k v tr = (Some ErrClosed, tr).
Proof. unfold Put. rewrite Hfin. reflexivity. Qed.

(** No call on a finalized wrapper reaches the driver or the store, and
    the wrapper is left as it was. *)
Lemma invoke_finalized op tr :
  snd (invoke env t op tr) = tr /\ snd (fst (invoke env t op tr)) = t.
Proof.
  destruct op; unfold invoke, bind, ret;
    rewrite ?Commit_finalized, ?Discard_finalized, ?Get_finalized,
      ?Has_finalized, ?GetSize_finalized, ?Query_finalized,
      ?QueryExtended_finalized, ?Delete_finalized, ?Put_finalized;
    split; reflexivity.
Qed.

End Finalized.

(** ** What a call can do to the receiver *)

Lemma Commit_receiver env t c tr :
  snd (fst (Commit env t c tr)) = t \/
  snd (fst (Commit env t c tr)) = set_finalized true t.
Proof.
  unfold_calls. destruct (finalized t); cbn; [now left|].
  destruct (commit_transaction env tr (session t) _); cbn; [now left | now right].
Qed.

Lemma Discard_receiver env t c tr :
  snd (fst (Discard env t c tr)) = t.
Proof.
  unfold_calls. destruct (finalized t); cbn; [reflexivity|].
  destruct (abort_transaction env tr (session t) _); reflexivity.
Qed.

(** The flag is written in one place only, and the value written there is
    [true]; nothing else of the receiver is touched. *)
Lemma invoke_receiver env t op tr :
  snd (fst (invoke env t op tr)) = t \/
  snd (fst (invoke env t op tr)) = set_finalized true t.
Proof.
  destruct op; unfold invoke, bind, ret.
  - pose proof (Commit_receiver env t c tr) as H.
    destruct (Commit env t c tr) as [[e t'] tr']; exact H.
  - pose proof (Discard_receiver env t c tr) as H.
    destruct (Discard env t c tr) as [[u t'] tr']; left; exact H.
  - destruct (Get env t c k tr); now left.
  - destruct (Has env t c k tr); now left.
  - destruct (GetSize env t c k tr); now left.
  - destruct (Query env t c q tr); now left.
  - destruct (QueryExtended env t q tr); now left.
  - destruct (Delete env t c k tr); now left.
  - destruct (Put env t c k v tr); now left.
Qed.

Lemma invoke_keeps_finalized env t op tr :
  finalized t = true -> finalized (snd (fst (invoke env t op tr))) = true.
Proof.
  intros H. destruct (invoke_receiver env t op tr) as [E | E]; rewrite E.
  - exact H.
  - reflexivity.
Qed.

Lemma invoke_all_cons env t op ops tr :
  invoke_all env t (op :: ops) tr =
  (let r := invoke env t op tr in
   let rs := invoke_all env (snd (fst r)) ops (snd r) in
   ((fst (fst r) :: fst (fst rs), snd (fst rs)), snd rs)).
Proof.
  cbn [invoke_all]. unfold bind, ret.
  destruct (invoke env t op tr) as [[a t'] tr']. cbn.
  destruct (invoke_all env t' ops tr') as [[l t''] tr'']. reflexivity.
Qed.

(** [C9] The [finalized] flag never goes back: whatever calls follow, in
    whatever number and with whatever answers from the driver and the
    store, a wrapper that is finalized is still finalized afterwards.
    (The one assignment to the flag writes [true]: [invoke_receiver].) *)
Theorem finalized_monotone env t ops tr :
  finalized t = true ->
  finalized (snd (fst (invoke_all env t ops tr))) = true.
Proof.
  revert t tr. induction ops as [| op ops IH]; intros t tr H.
  - exact H.
  - rewrite invoke_all_cons. cbn.
    apply IH. apply invoke_keeps_finalized. exact H.
Qed.

Lemma finalized_monotone_witness :
  finalized txn_done = true /\
  finalized (snd (fst (invoke_all env_commit_fails_once txn_done
    [CallPut caller_ctx "a" None; CallDiscard caller_ctx;
     CallCommit caller_ctx; CallGet caller_ctx "a"] []))) = true.
Proof.
  split; [reflexivity |].
  apply (finalized_monotone env_commit_fails_once txn_done); reflexivity.
Defined.

(** ** Commit *)

(** [C4] When the driver refuses the commit (or the deadline passes, which
    the driver reports as an error too), [Commit] returns the cause wrapped
    by [fmt.Errorf], leaves the receiver exactly as it was, hence not
    finalized, and has made the one commit call and nothing else.  A second
    [Commit] asks the driver to commit again, and a [Discard] asks it to
    abort. *)
Theorem Commit_failure_keeps_active env t c tr e :
  finalized t = false ->
  commit_transaction env tr (session t) (WithTimeout c (txnTimeout (m t))) = Some e ->
  let tr' := tr ++ [EvCommitTransaction (session t)
                      (WithTimeout c (txnTimeout (m t))) (Some e)] in
  Commit env t c tr = ((Some (Errorf "commiting session txn: %s" e), t), tr') /\
  finalized (snd (fst (Commit env t c tr))) = false /\
  (forall c', exists rest,
      snd (Commit env t c' tr') =
      tr' ++ EvCommitTransaction (session t) (WithTimeout c' (txnTimeout (m t)))
               (commit_transaction env tr' (session t)
                  (WithTimeout c' (txnTimeout (m t)))) :: rest) /\
  (forall c', exists rest,
      snd (Discard env t c' tr') =
      tr' ++ EvAbortTransaction (session t) (WithTimeout c' (txnTimeout (m t)))
               (abort_transaction env tr' (session t)
                  (WithTimeout c' (txnTimeout (m t)))) :: rest).
Proof.
  intros Hact Herr tr'.
  assert (E : Commit env t c tr =
              ((Some (Errorf "commiting session txn: %s" e), t), tr')).
  { unfold_calls. rewrite Hact. cbn. rewrite Herr. reflexivity. }
  split; [exact E |]. split; [rewrite E; exact Hact |]. split.
  - intros c'. unfold_calls. rewrite Hact. cbn.
    destruct (commit_transaction env tr' (session t) _); cbn.
    + exists []. reflexivity.
    + eexists. rewrite <- app_assoc. reflexivity.
  - intros c'. unfold_calls. rewrite Hact. cbn.
    destruct (abort_transaction env tr' (session t) _); cbn;
      eexists; rewrite <- !app_assoc; reflexivity.
Qed.

Lemma Commit_failure_keeps_active_witness :
  finalized txn0 = false /\
  commit_transaction env_commit_fails_once [] (session txn0)
    (WithTimeout caller_ctx (txnTimeout (m txn0))) = Some driver_error /\
  Commit env_commit_fails_once txn0 caller_ctx [] =
    ((Some (Errorf "commiting session txn: %s" driver_error), txn0),
     refused_once).
Proof.
  split; [reflexivity |]. split; [reflexivity |].
  apply (Commit_failure_keeps_active env_commit_fails_once txn0 caller_ctx []
           driver_error); reflexivity.
Defined.

(** An accepted commit, step by step. *)
Lemma Commit_accepted env t c tr :
  finalized t = false ->
  commit_transaction env tr (session t) (WithTimeout c (txnTimeout (m t))) = None ->
  let tr1 := tr ++ [EvCommitTransaction (session t)
                      (WithTimeout c (txnTimeout (m t))) None] in
  Commit env t c tr =
    ((None, set_finalized true t),
     tr1 ++ [EvEndSession (session t) (WithTimeout c (opTimeout (m t)))
               (end_session_ok env tr1 (session t)
                  (WithTimeout c (opTimeout (m t))))]).
Proof.
  intros Hact Hok tr1. unfold_calls. rewrite Hact. cbn. rewrite Hok.
  reflexivity.
Qed.

(** [C6] When the driver accepts the commit, [Commit] marks the receiver
    finalized, then ends the session under the store's operation timeout
    [opTimeout] (the commit itself ran under [txnTimeout]), and returns nil.
    The fate of the end-session call, [end_session_ok], is recorded in the
    trace and has no influence on what [Commit] returns. *)
Theorem Commit_success_finalizes env t c tr :
  finalized t = false ->
  commit_transaction env tr (session t) (WithTimeout c (txnTimeout (m t))) = None ->
  let tr1 := tr ++ [EvCommitTransaction (session t)
                      (WithTimeout c (txnTimeout (m t))) None] in
  Commit env t c tr =
    ((None, set_finalized true t),
     tr1 ++ [EvEndSession (session t) (WithTimeout c (opTimeout (m t)))
               (end_session_ok env tr1 (session t)
                  (WithTimeout c (opTimeout (m t))))]) /\
  finalized (snd (fst (Commit env t c tr))) = true /\
  fst (fst (Commit env t c tr)) = None.
Proof.
  intros Hact Hok tr1.
  rewrite (Commit_accepted env t c tr Hact Hok). repeat split.
Qed.

(** After one refused commit [env_commit_fails_once] accepts the next one,
    and its end-session call fails: [Commit] returns nil all the same. *)
Lemma Commit_success_finalizes_witness :
  finalized txn0 = false /\
  commit_transaction env_commit_fails_once refused_once (session txn0)
    (WithTimeout caller_ctx (txnTimeout (m txn0))) = None /\
  Commit env_commit_fails_once txn0 caller_ctx refused_once =
    ((None, txn_done),
     refused_once ++
     [EvCommitTransaction 7 (WithTimeout caller_ctx (txnTimeout ds0)) None;
      EvEndSession 7 (WithTimeout caller_ctx (opTimeout ds0)) false]).
Proof.
  split; [reflexivity |]. split; [reflexivity |].
  apply (Commit_success_finalizes env_commit_fails_once txn0 caller_ctx
           refused_once); reflexivity.
Defined.

(** ** The factory *)

Lemma newTransaction_closed env ds b tr :
  closed ds = true ->
  newTransaction env ds b tr = ((None, Some ErrClosed), tr).
Proof. intros H. unfold newTransaction. rewrite H. reflexivity. Qed.

Lemma newTransaction_session_error env ds b tr s e :
  closed ds = false ->
  start_session env tr = (s, Some e) ->
  newTransaction env ds b tr =
    ((None, Some (Errorf "starting mongo session: %s" e)),
     tr ++ [EvStartSession (s, Some e)]).
Proof.
  intros Hc Hs. unfold_calls. rewrite Hc. cbn. rewrite Hs. reflexivity.
Qed.

Lemma newTransaction_txn_error env ds b tr s e :
  closed ds = false ->
  start_session env tr = (s, None) ->
  start_transaction env (tr ++ [EvStartSession (s, None)]) s = Some e ->
  newTransaction env ds b tr =
    ((None, Some (Errorf "starting session txn: %s" e)),
     tr ++ [EvStartSession (s, None); EvStartTransaction s (Some e)]).
Proof.
  intros Hc Hs Ht. unfold_calls. rewrite Hc. cbn. rewrite Hs. cbn.
  rewrite Ht. cbn. rewrite <- app_assoc. reflexivity.
Qed.

Lemma newTransaction_ok env ds b tr s :
  closed ds = false ->
  start_session env tr = (s, None) ->
  start_transaction env (tr ++ [EvStartSession (s, None)]) s = None ->
  newTransaction env ds b tr =
    ((Some {| finalized := false; m := ds; session := s;
              ctx := NewSessionContext Background s |}, None),
     tr ++ [EvStartSession (s, None); EvStartTransaction s None]).
Proof.
  intros Hc Hs Ht. unfold_calls. rewrite Hc. cbn. rewrite Hs. cbn.
  rewrite Ht. cbn. rewrite <- app_assoc. reflexivity.
Qed.

(** The factory never ends a session, on any path. *)
Lemma newTransaction_never_ends_session env ds b tr :
  filter is_end_session (snd (newTransaction env ds b tr)) =
  filter is_end_session tr.
Proof.
  unfold_calls. destruct (closed ds); cbn; [reflexivity |].
  destruct (start_session env tr) as [s [e |]] eqn:Hs; cbn.
  - rewrite filter_app. cbn. apply app_nil_r.
  - destruct (start_transaction env _ s); cbn;
      rewrite !filter_app; cbn; rewrite !app_nil_r; reflexivity.
Qed.

(** [C5] The factory checks the shutdown flag before anything else and
    reports a session that cannot start; but when the driver refuses to
    start the transaction on a session it has just handed out, the factory
    returns the wrapped error and leaves that session open: it issues no
    [EndSession], here or anywhere else. *)
Theorem newTransaction_leaves_session_open :
  newTransaction env_txn_refused ds0 false [] =
    ((None, Some (Errorf "starting session txn: %s" driver_error)),
     [EvStartSession (7, None); EvStartTransaction 7 (Some driver_error)]) /\
  filter is_end_session (snd (newTransaction env_txn_refused ds0 false [])) = [].
Proof. split; reflexivity. Qed.

(** [C10] The [readOnly] argument, and the context given to
    [NewTransaction], change nothing: the wrapper or error returned and
    the calls made to the driver are the same whatever their values. *)
Theorem readOnly_ignored env ds c1 c2 r1 r2 tr :
  NewTransaction env ds c1 r1 tr = NewTransaction env ds c2 r2 tr /\
  NewTransactionExtended env ds r1 tr = NewTransactionExtended env ds r2 tr /\
  NewTransaction env ds c1 r1 tr = NewTransactionExtended env ds r2 tr.
Proof. repeat split. Qed.

(** ** An active wrapper forwards *)

(** Every call on a wrapper that is not finalized goes to the store with
    the context the caller passed in; only [QueryExtended], which receives
    none, uses the session context kept in the wrapper. *)
Lemma active_calls_forward env ds s cx c k v q qe tr :
  let t := {| finalized := false; m := ds; session := s; ctx := cx |} in
  Get env t c k tr = (ds_get env tr c k, tr ++ [EvGet c k (ds_get env tr c k)]) /\
  Has env t c k tr = (ds_has env tr c k, tr ++ [EvHas c k (ds_has env tr c k)]) /\
  GetSize env t c k tr =
    (ds_getSize env tr c k, tr ++ [EvGetSize c k (ds_getSize env tr c k)]) /\
  Delete env t c k tr =
    (ds_delete env tr c k, tr ++ [EvDelete c k (ds_delete env tr c k)]) /\
  Put env t c k v tr =
    (ds_put env tr c k v, tr ++ [EvPut c k v (ds_put env tr c k v)]) /\
  Query env t c q tr =
    (let qx := {| Query_of := q; SeekPrefix := "" |} in
     (ds_query env tr c qx, tr ++ [EvQuery c qx (ds_query env tr c qx)])) /\
  QueryExtended env t qe tr =
    (ds_query env tr cx qe, tr ++ [EvQuery cx qe (ds_query env tr cx qe)]).
Proof. repeat split. Qed.

(** [C2] [Get], [Has], [GetSize], [Delete] and [Put] on an active wrapper
    hand the store the caller's context, which is not the session context
    of the wrapper; [Query] does the same, and [QueryExtended] is the one
    call that runs under the session context. *)
Theorem crud_runs_under_caller_context :
  caller_ctx <> ctx txn0 /\
  snd (Get env_ok txn0 caller_ctx "a" []) =
    [EvGet caller_ctx "a" (Some [], None)] /\
  snd (Has env_ok txn0 caller_ctx "a" []) =
    [EvHas caller_ctx "a" (true, None)] /\
  snd (GetSize env_ok txn0 caller_ctx "a" []) =
    [EvGetSize caller_ctx "a" (0%Z, None)] /\
  snd (Delete env_ok txn0 caller_ctx "a" []) =
    [EvDelete caller_ctx "a" None] /\
  snd (Put env_ok txn0 caller_ctx "a" (Some []) []) =
    [EvPut caller_ctx "a" (Some []) None] /\
  snd (Query env_ok txn0 caller_ctx 3 []) =
    [EvQuery caller_ctx {| Query_of := 3; SeekPrefix := "" |} (Some 0, None)] /\
  snd (QueryExtended env_ok txn0 qe0 []) =
    [EvQuery (ctx txn0) qe0 (Some 0, None)].
Proof. split; [discriminate | repeat split]. Qed.

(** ** Discard *)

(** On an active wrapper [Discard] asks the driver to abort, logs a
    refusal, and ends the session. *)
Lemma Discard_active env t c tr :
  finalized t = false ->
  let c1 := WithTimeout c (txnTimeout (m t)) in
  let c2 := WithTimeout c (opTimeout (m t)) in
  let r := abort_transaction env tr (session t) c1 in
  let tr1 := tr ++ [EvAbortTransaction (session t) c1 r] in
  let tr2 := match r with
             | Some e => tr1 ++ [EvLogErrorf "aborting transaction: %s" e]
             | None => tr1
             end in
  Discard env t c tr =
    ((tt, t),
     tr2 ++ [EvEndSession (session t) c2 (end_session_ok env tr2 (session t) c2)]).
Proof.
  intros Hact. unfold_calls. rewrite Hact. cbn.
  destruct (abort_transaction env tr (session t) _); reflexivity.
Qed.

(** [C1] [Discard] returns the receiver as it found it, so the flag is
    still false after the abort and end-session calls.  Calls that follow
    on the same wrapper are not refused: each one goes to the store or to
    the driver, and a following [Commit] is sent as well. *)
Theorem Discard_leaves_active :
  (forall env t c tr, snd (fst (Discard env t c tr)) = t) /\
  finalized (snd (fst (Discard env_ok txn0 caller_ctx []))) = false /\
  invoke_all env_ok txn0
    [CallDiscard caller_ctx; CallGet caller_ctx "a"; CallHas caller_ctx "a";
     CallGetSize caller_ctx "a"; CallQuery caller_ctx 3; CallQueryExtended qe0;
     CallDelete caller_ctx "a"; CallPut caller_ctx "a" None;
     CallCommit caller_ctx] [] =
  (([RetDiscard; RetGet (Some [], None); RetHas (true, None);
     RetGetSize (0%Z, None); RetQuery (Some 0, None); RetQuery (Some 0, None);
     RetDelete None; RetPut None; RetCommit None],
    txn_done),
   discard_calls ++
   [EvGet caller_ctx "a" (Some [], None);
    EvHas caller_ctx "a" (true, None);
    EvGetSize caller_ctx "a" (0%Z, None);
    EvQuery caller_ctx {| Query_of := 3; SeekPrefix := "" |} (Some 0, None);
    EvQuery (ctx txn0) qe0 (Some 0, None);
    EvDelete caller_ctx "a" None;
    EvPut caller_ctx "a" None None] ++
   commit_calls).
Proof.
  split; [exact Discard_receiver |]. split; reflexivity.
Qed.

(** [C7] A second [Discard] is not a no-op: the first one leaves the flag
    false, so the second asks the driver to abort and to end the session
    once more. *)
Theorem Discard_twice_calls_twice :
  invoke_all env_ok txn0 [CallDiscard caller_ctx; CallDiscard caller_ctx] [] =
    (([RetDiscard; RetDiscard], txn0), discard_calls ++ discard_calls) /\
  length (filter is_end_session
    (snd (invoke_all env_ok txn0
            [CallDiscard caller_ctx; CallDiscard caller_ctx] []))) = 2.
Proof. split; reflexivity. Qed.

(** ** After a successful commit *)

(** Once [Commit] has succeeded the reads, [Query] and [Commit] answer
    [ErrTxnFinalized] and [Discard] returns at once; none of them, nor
    [Put] and [Delete], calls the driver or the store. *)
Lemma after_Commit_reads_refused env t c tr c' k q qe tr' :
  finalized t = false ->
  commit_transaction env tr (session t) (WithTimeout c (txnTimeout (m t))) = None ->
  let t' := snd (fst (Commit env t c tr)) in
  Get env t' c' k tr' = ((None, Some ErrTxnFinalized), tr') /\
  Has env t' c' k tr' = ((false, Some ErrTxnFinalized), tr') /\
  GetSize env t' c' k tr' = ((0%Z, Some ErrTxnFinalized), tr') /\
  Query env t' c' q tr' = ((None, Some ErrTxnFinalized), tr') /\
  QueryExtended env t' qe tr' = ((None, Some ErrTxnFinalized), tr') /\
  Commit env t' c' tr' = ((Some ErrTxnFinalized, t'), tr') /\
  Discard env t' c' tr' = ((tt, t'), tr').
Proof.
  intros Hact Hok t'.
  assert (Hfin : finalized t' = true).
  { unfold t'. rewrite (Commit_accepted env t c tr Hact Hok). reflexivity. }
  repeat split;
    auto using Get_finalized, Has_finalized, GetSize_finalized, Query_finalized,
      QueryExtended_finalized, Commit_finalized, Discard_finalized.
Qed.

(** [C3] After a successful [Commit] nothing reaches the driver or the
    store any more, and [Get] answers [ErrTxnFinalized]; [Put] and [Delete]
    however answer with the store's [ErrClosed], which is another error
    value. *)
Theorem Put_Delete_after_Commit_ErrClosed :
  invoke_all env_ok txn0
    [CallCommit caller_ctx; CallPut caller_ctx "a" None;
     CallDelete caller_ctx "a"; CallGet caller_ctx "a"] [] =
  (([RetCommit None; RetPut (Some ErrClosed); RetDelete (Some ErrClosed);
     RetGet (None, Some ErrTxnFinalized)], txn_done),
   commit_calls) /\
  (forall env t c k v tr,
      Put env (set_finalized true t) c k v tr = (Some ErrClosed, tr) /\
      Delete env (set_finalized true t) c k tr = (Some ErrClosed, tr)) /\
  ErrClosed <> ErrTxnFinalized.
Proof.
  split; [reflexivity |]. split; [| discriminate].
  intros. split; [apply Put_finalized | apply Delete_finalized]; reflexivity.
Qed.

(** ** Goroutines *)

Lemma count_set_nth {A} (p : A -> bool) (x y : A) l i :
  nth_error l i = Some y ->
  length (filter p (set_nth i x l)) + Nat.b2n (p y) =
  length (filter p l) + Nat.b2n (p x).
Proof.
  revert i. induction l as [| a l IH]; intros [| i] H; cbn in H.
  - discriminate.
  - discriminate.
  - injection H as ->. cbn. destruct (p x), (p y); cbn; lia.
  - specialize (IH i H). cbn. destruct (p a); cbn; lia.
Qed.

Lemma spawn_lock_inv t tr ops : lock_inv (spawn t tr ops).
Proof.
  unfold lock_inv, inside, spawn. cbn.
  induction ops as [| op ops IH]; cbn; [reflexivity | exact IH].
Qed.

Lemma step_lock_inv env i s s' :
  step env i s = Some s' -> lock_inv s -> lock_inv s'.
Proof.
  unfold step, lock_inv, inside. intros Hstep Hinv.
  destruct (nth_error (goroutines s) i) as [[op | op | a | a] |] eqn:Hi;
    try discriminate.
  - destruct (lock s) eqn:Hl; [discriminate |].
    injection Hstep as <-. cbn.
    pose proof (count_set_nth is_holding (Holding op) _ _ _ Hi) as Hc.
    cbn in Hc, Hinv. lia.
  - destruct (invoke env (obj s) op (world s)) as [r tr].
    injection Hstep as <-. cbn.
    pose proof (count_set_nth is_holding (Leaving (fst r)) _ _ _ Hi) as Hc.
    cbn in Hc. lia.
  - injection Hstep as <-. cbn.
    pose proof (count_set_nth is_holding (Returned a) _ _ _ Hi) as Hc.
    cbn in Hc. destruct (lock s); cbn in Hinv; lia.
Qed.

Lemma run_schedule_lock_inv env sched s s' :
  run_schedule env sched s = Some s' -> lock_inv s -> lock_inv s'.
Proof.
  revert s. induction sched as [| i sched IH]; cbn; intros s Hrun Hinv.
  - injection Hrun as <-. exact Hinv.
  - destruct (step env i s) as [s1 |] eqn:Hs; [| discriminate].
    eauto using step_lock_inv.
Qed.

(** However the goroutines are scheduled, at most one of them is between
    [Lock] and [Unlock], and none is when the mutex is free. *)
Lemma mutual_exclusion env sched t tr ops s :
  run_schedule env sched (spawn t tr ops) = Some s ->
  inside s <= 1 /\ (lock s = false -> inside s = 0).
Proof.
  intros Hrun.
  pose proof (run_schedule_lock_inv _ _ _ _ Hrun (spawn_lock_inv t tr ops)) as H.
  unfold lock_inv in H. destruct (lock s); cbn in H; split; intros; lia || easy.
Qed.

Lemma step_after_finalized env i s s' :
  finalized (obj s) = true ->
  step env i s = Some s' ->
  finalized (obj s') = true /\ world s' = world s.
Proof.
  unfold step. intros Hfin Hstep.
  destruct (nth_error (goroutines s) i) as [[op | op | a | a] |];
    try discriminate.
  - destruct (lock s); [discriminate |]. injection Hstep as <-. now split.
  - destruct (invoke_finalized env _ Hfin op (world s)) as [Htr Ht].
    destruct (invoke env (obj s) op (world s)) as [r tr].
    injection Hstep as <-. cbn in *. split; [| exact Htr].
    rewrite Ht. exact Hfin.
  - injection Hstep as <-. now split.
Qed.

(** Once the flag is set, no goroutine sends anything to the driver or to
    the store, whatever the schedule. *)
Lemma run_schedule_after_finalized env sched s s' :
  finalized (obj s) = true ->
  run_schedule env sched s = Some s' ->
  finalized (obj s') = true /\ world s' = world s.
Proof.
  revert s. induction sched as [| i sched IH]; cbn; intros s Hfin Hrun.
  - injection Hrun as <-. now split.
  - destruct (step env i s) as [s1 |] eqn:Hs; [| discriminate].
    destruct (step_after_finalized _ _ _ _ Hfin Hs) as [Hfin1 Hw1].
    destruct (IH _ Hfin1 Hrun) as [Hfin' Hw']. split; congruence.
Qed.

(** A goroutine that asks for the mutex while another holds it does not
    get in. *)
Example Lock_blocks_while_held :
  run_schedule env_ok [0; 1]
    (spawn txn0 [] [CallCommit caller_ctx; CallPut caller_ctx "a" None]) = None.
Proof. reflexivity. Qed.

(** [C8] The mutex does serialize the goroutines ([mutual_exclusion]), but
    a [Put] that gets the mutex after a [Discard] is sent to the store
    instead of being refused, a [Commit] that gets it after a [Discard] is
    sent to the driver as a second finalization, and a [Put] that loses
    against a [Commit] is refused with [ErrClosed]. *)
Theorem Put_after_racing_Discard_forwarded :
  run_schedule env_ok [0; 0; 0; 1; 1; 1]
    (spawn txn0 [] [CallDiscard caller_ctx; CallPut caller_ctx "a" None]) =
  Some {| lock := false; obj := txn0;
          world := discard_calls ++ [EvPut caller_ctx "a" None None];
          goroutines := [Returned RetDiscard; Returned (RetPut None)] |} /\
  run_schedule env_ok [0; 0; 0; 1; 1; 1]
    (spawn txn0 [] [CallDiscard caller_ctx; CallCommit caller_ctx]) =
  Some {| lock := false; obj := txn_done;
          world := discard_calls ++ commit_calls;
          goroutines := [Returned RetDiscard; Returned (RetCommit None)] |} /\
  run_schedule env_ok [0; 0; 0; 1; 1; 1]
    (spawn txn0 [] [CallCommit caller_ctx; CallPut caller_ctx "a" None]) =
  Some {| lock := false; obj := txn_done;
          world := commit_calls;
          goroutines := [Returned (RetCommit None);
                         Returned (RetPut (Some ErrClosed))] |}.
Proof. repeat split. Qed.

(** * Further properties of the wrapper *)

(** ** Calls on a finalized wrapper *)

Lemma invoke_refused env t op tr :
  finalized t = true -> invoke env t op tr = ((refusal op, t), tr).
Proof.
  intros H. destruct op; unfold invoke, bind, ret.
  - rewrite (Commit_finalized env t H). reflexivity.
  - rewrite (Discard_finalized env t H). reflexivity.
  - rewrite (Get_finalized env t H). reflexivity.
  - rewrite (Has_finalized env t H). reflexivity.
  - rewrite (GetSize_finalized env t H). reflexivity.
  - rewrite (Query_finalized env t H). reflexivity.
  - rewrite (QueryExtended_finalized env t H). reflexivity.
  - rewrite (Delete_finalized env t H). reflexivity.
  - rewrite (Put_finalized env t H). reflexivity.
Qed.

Lemma invoke_all_refused env t ops tr :
  finalized t = true -> invoke_all env t ops tr = ((map refusal ops, t), tr).
Proof.
  intros H. induction ops as [| op ops IH]; [reflexivity |].
  rewrite invoke_all_cons, (invoke_refused env t op tr H). cbn.
  rewrite IH. reflexivity.
Qed.

Lemma refusal_error op :
  refusal op = RetDiscard \/
  error_of (refusal op) = Some ErrTxnFinalized \/
  error_of (refusal op) = Some ErrClosed.
Proof. destruct op; cbn; auto. Qed.

(** [X1] Any run of calls on a finalized wrapper sends nothing to the
    driver or the store and leaves the wrapper as it is; each call gets
    the answer of its early return, so every call other than [Discard]
    fails, with [ErrTxnFinalized] or (for [Put] and [Delete]) [ErrClosed]. *)
Theorem finalized_calls_refused env t ops tr :
  finalized t = true ->
  invoke_all env t ops tr = ((map refusal ops, t), tr) /\
  (forall a, In a (fst (fst (invoke_all env t ops tr))) ->
     a = RetDiscard \/ error_of a = Some ErrTxnFinalized \/
     error_of a = Some ErrClosed).
Proof.
  intros H. rewrite (invoke_all_refused env t ops tr H). split; [reflexivity |].
  cbn. intros a Ha. apply in_map_iff in Ha as [op [<- _]].
  apply refusal_error.
Qed.

Lemma finalized_calls_refused_witness :
  finalized txn_done = true /\
  invoke_all env_ok txn_done
    [CallGet caller_ctx "a"; CallPut caller_ctx "a" None; CallDiscard caller_ctx;
     CallCommit caller_ctx] [] =
  (([RetGet (None, Some ErrTxnFinalized); RetPut (Some ErrClosed); RetDiscard;
     RetCommit (Some ErrTxnFinalized)], txn_done), []).
Proof.
  split; [reflexivity |].
  apply (finalized_calls_refused env_ok txn_done
           [CallGet caller_ctx "a"; CallPut caller_ctx "a" None;
            CallDiscard caller_ctx; CallCommit caller_ctx] []).
  reflexivity.
Defined.

(** ** Outcomes of the factory *)

(** [X2] [newTransaction] returns either a wrapper and a nil error or no
    wrapper and an error, never both and never neither.  A wrapper it
    returns is active, belongs to the store it was asked on, holds the
    session the driver handed out and the session context built from
    [context.Background()]; the driver was asked for a session and for a
    transaction on it, in that order, and both calls succeeded. *)
Theorem newTransaction_outcome env ds b tr :
  match newTransaction env ds b tr with
  | ((Some t, None), tr') =>
    closed ds = false /\ finalized t = false /\ m t = ds /\
    ctx t = NewSessionContext Background (session t) /\
    tr' = tr ++ [EvStartSession (session t, None);
                 EvStartTransaction (session t) None]
  | ((None, Some e), tr') =>
    (e = ErrClosed /\ closed ds = true /\ tr' = tr) \/
    (exists s cause, e = Errorf "starting mongo session: %s" cause /\
       tr' = tr ++ [EvStartSession (s, Some cause)]) \/
    (exists s cause, e = Errorf "starting session txn: %s" cause /\
       tr' = tr ++ [EvStartSession (s, None);
                    EvStartTransaction s (Some cause)])
  | _ => False
  end.
Proof.
  unfold_calls. destruct (closed ds) eqn:Hc; cbn; [now left |].
  destruct (start_session env tr) as [s [e |]]; cbn.
  - right. left. now exists s, e.
  - destruct (start_transaction env _ s) as [e |]; cbn.
    + right. right. exists s, e. rewrite <- app_assoc. now split.
    + rewrite <- app_assoc. now repeat split.
Qed.

(** [X3] The factory answers [ErrClosed] exactly when the store is shut
    down, and that is also the only case in which it does not contact the
    driver at all. *)
Theorem newTransaction_closed_iff env ds b tr :
  (snd (fst (newTransaction env ds b tr)) = Some ErrClosed <-> closed ds = true) /\
  (snd (newTransaction env ds b tr) = tr <-> closed ds = true).
Proof.
  pose proof (app_nil_r tr) as Hnil.
  unfold_calls. destruct (closed ds) eqn:Hc; cbn; [now repeat split |].
  destruct (start_session env tr) as [s [e |]]; cbn.
  - repeat split; intros H; try discriminate.
    rewrite <- Hnil in H at 2. apply app_inv_head in H. discriminate.
  - destruct (start_transaction env _ s) as [e |]; cbn;
      repeat split; intros H; try discriminate;
      rewrite <- app_assoc in H; rewrite <- Hnil in H at 2;
      apply app_inv_head in H; discriminate.
Qed.

(** ** Outcomes of Commit *)

(** [X4] [Commit] answers [ErrTxnFinalized] exactly when the wrapper was
    already finalized, and nil exactly when the wrapper was active and the
    driver accepted the commit; the wrapper is finalized afterwards exactly
    when it was before or [Commit] has just returned nil. *)
Theorem Commit_outcomes env t c tr :
  (fst (fst (Commit env t c tr)) = Some ErrTxnFinalized <-> finalized t = true) /\
  (fst (fst (Commit env t c tr)) = None <->
     finalized t = false /\
     commit_transaction env tr (session t)
       (WithTimeout c (txnTimeout (m t))) = None) /\
  (finalized (snd (fst (Commit env t c tr))) = true <->
     finalized t = true \/ fst (fst (Commit env t c tr)) = None).
Proof.
  unfold_calls. destruct (finalized t) eqn:Hf; cbn.
  - rewrite Hf. intuition discriminate.
  - destruct (commit_transaction env tr (session t) _) as [e |]; cbn;
      rewrite ?Hf; intuition discriminate.
Qed.

(** [X5] The flag is set by nothing but a [Commit] that the driver
    accepted: if a call finds the wrapper active and leaves it finalized,
    the call was a [Commit], the driver returned nil for it, and so did
    the call. *)
Theorem flag_set_only_by_accepted_Commit env t op tr :
  finalized t = false ->
  finalized (snd (fst (invoke env t op tr))) = true ->
  exists c,
    op = CallCommit c /\
    commit_transaction env tr (session t)
      (WithTimeout c (txnTimeout (m t))) = None /\
    fst (fst (invoke env t op tr)) = RetCommit None.
Proof.
  intros Hact Hset. destruct op; unfold invoke, bind, ret in *.
  - exists c. split; [reflexivity |].
    revert Hset. unfold_calls. rewrite Hact. cbn.
    destruct (commit_transaction env tr (session t) _) as [e |]; cbn.
    + rewrite Hact. discriminate.
    + intros _. now split.
  - pose proof (Discard_receiver env t c tr) as H.
    destruct (Discard env t c tr) as [[u t'] tr']. cbn in *. congruence.
  - destruct (Get env t c k tr). cbn in *. congruence.
  - destruct (Has env t c k tr). cbn in *. congruence.
  - destruct (GetSize env t c k tr). cbn in *. congruence.
  - destruct (Query env t c q tr). cbn in *. congruence.
  - destruct (QueryExtended env t q tr). cbn in *. congruence.
  - destruct (Delete env t c k tr). cbn in *. congruence.
  - destruct (Put env t c k v tr). cbn in *. congruence.
Qed.

Lemma flag_set_only_by_accepted_Commit_witness :
  finalized txn0 = false /\
  finalized (snd (fst (invoke env_ok txn0 (CallCommit caller_ctx) []))) = true /\
  exists c,
    CallCommit caller_ctx = CallCommit c /\
    commit_transaction env_ok [] (session txn0)
      (WithTimeout c (txnTimeout (m txn0))) = None /\
    fst (fst (invoke env_ok txn0 (CallCommit caller_ctx) [])) = RetCommit None.
Proof.
  split; [reflexivity |]. split; [reflexivity |].
  apply (flag_set_only_by_accepted_Commit env_ok txn0 (CallCommit caller_ctx) []);
    reflexivity.
Defined.

(** ** From creation to commit *)

(** [X6] A whole life: on an open store whose driver grants the session,
    the transaction and the commit, [newTransaction] followed by [Commit]
    makes four driver calls (start session, start transaction, commit, end
    session); whatever calls come after that on the wrapper add nothing to
    them and are all refused. *)
Theorem create_commit_then_refuse env ds b c tr s :
  closed ds = false ->
  start_session env tr = (s, None) ->
  start_transaction env (tr ++ [EvStartSession (s, None)]) s = None ->
  commit_transaction env
    (tr ++ [EvStartSession (s, None); EvStartTransaction s None]) s
    (WithTimeout c (txnTimeout ds)) = None ->
  exists t tr1 t' ok,
    newTransaction env ds b tr = ((Some t, None), tr1) /\
    Commit env t c tr1 = ((None, t'), tr1 ++
      [EvCommitTransaction s (WithTimeout c (txnTimeout ds)) None;
       EvEndSession s (WithTimeout c (opTimeout ds)) ok]) /\
    tr1 = tr ++ [EvStartSession (s, None); EvStartTransaction s None] /\
    forall ops tr2, invoke_all env t' ops tr2 = ((map refusal ops, t'), tr2).
Proof.
  intros Hc Hs Ht Hk.
  rewrite (newTransaction_ok env ds b tr s Hc Hs Ht).
  eexists _, _, _, _. split; [reflexivity |]. split.
  - rewrite Commit_accepted; cbn; [| reflexivity | exact Hk].
    rewrite <- app_assoc. reflexivity.
  - split; [reflexivity |]. intros ops tr2.
    apply invoke_all_refused. reflexivity.
Qed.

Lemma create_commit_then_refuse_witness :
  closed ds0 = false /\
  exists t tr1 t' ok,
    newTransaction env_ok ds0 true [] = ((Some t, None), tr1) /\
    Commit env_ok t caller_ctx tr1 = ((None, t'), tr1 ++
      [EvCommitTransaction 7 (WithTimeout caller_ctx (txnTimeout ds0)) None;
       EvEndSession 7 (WithTimeout caller_ctx (opTimeout ds0)) ok]) /\
    tr1 = [] ++ [EvStartSession (7, None); EvStartTransaction 7 None] /\
    forall ops tr2, invoke_all env_ok t' ops tr2 = ((map refusal ops, t'), tr2).
Proof.
  split; [reflexivity |].
  apply (create_commit_then_refuse env_ok ds0 true caller_ctx [] 7); reflexivity.
Defined.

(** ** What a wrapper may send *)

Lemma invoke_own env t op tr :
  exists new,
    snd (invoke env t op tr) = tr ++ new /\
    forallb (own_event (session t)) new = true /\
    session (snd (fst (invoke env t op tr))) = session t.
Proof.
  destruct op; unfold invoke; unfold_calls; destruct (finalized t); cbn;
    try (exists []; rewrite app_nil_r; now repeat split);
    try (eexists; split; [reflexivity | now split]).
  - destruct (commit_transaction env tr (session t) _); cbn;
      eexists; rewrite <- ?app_assoc; (split; [reflexivity |]);
      cbn; rewrite ?Nat.eqb_refl; now split.
  - destruct (abort_transaction env tr (session t) _); cbn;
      eexists; rewrite <- ?app_assoc; (split; [reflexivity |]);
      cbn; rewrite ?Nat.eqb_refl; now split.
Qed.

(** [X7] Whatever calls are made on a wrapper, and whatever the driver and
    the store answer, the wrapper only ever adds to the history, never
    starts a session or a transaction, and speaks to the driver about no
    session but its own. *)
Theorem calls_stay_on_own_session env t ops tr :
  exists new,
    snd (invoke_all env t ops tr) = tr ++ new /\
    forallb (own_event (session t)) new = true.
Proof.
  revert t tr. induction ops as [| op ops IH]; intros t tr.
  - exists []. rewrite app_nil_r. now split.
  - rewrite invoke_all_cons. cbn.
    destruct (invoke_own env t op tr) as [n1 [E1 [O1 S1]]].
    destruct (IH (snd (fst (invoke env t op tr))) (snd (invoke env t op tr)))
      as [n2 [E2 O2]].
    exists (n1 ++ n2). rewrite E2, E1, app_assoc. split; [reflexivity |].
    rewrite forallb_app, O1. rewrite S1 in O2. exact O2.
Qed.




(** ** Discard on an active wrapper *)

(** [X9] [Discard] on an active wrapper is best effort: it asks the driver
    once to abort, under the transaction timeout; a refusal is logged and
    nothing else; and whether or not the abort went through it then ends
    the session once, under the operation timeout.  Both timeouts are set
    on the context the caller passed in. *)
Theorem Discard_best_effort env t c tr :
  finalized t = false ->
  exists r ok,
    r = abort_transaction env tr (session t) (WithTimeout c (txnTimeout (m t))) /\
    Discard env t c tr =
      ((tt, t),
       tr ++ EvAbortTransaction (session t) (WithTimeout c (txnTimeout (m t))) r
          :: match r with
             | Some e => [EvLogErrorf "aborting transaction: %s" e]
             | None => []
             end
          ++ [EvEndSession (session t) (WithTimeout c (opTimeout (m t))) ok]).
Proof.
  intros Hact. rewrite (Discard_active env t c tr Hact).
  destruct (abort_transaction env tr (session t) _) as [e |];
    eexists _, _; (split; [reflexivity |]); cbn; rewrite <- ?app_assoc;
    reflexivity.
Qed.

Lemma Discard_best_effort_witness :
  finalized txn0 = false /\
  exists r ok,
    r = Some driver_error /\
    Discard env_abort_refused txn0 caller_ctx [] =
      ((tt, txn0),
       [] ++ EvAbortTransaction 7 (WithTimeout caller_ctx (txnTimeout ds0)) r
          :: match r with
             | Some e => [EvLogErrorf "aborting transaction: %s" e]
             | None => []
             end
          ++ [EvEndSession 7 (WithTimeout caller_ctx (opTimeout ds0)) ok]).
Proof.
  split; [reflexivity |].
  apply (Discard_best_effort env_abort_refused txn0 caller_ctx []); reflexivity.
Defined.

(** ** Commit with a deferred Discard *)



(** * Further properties of goroutines on one wrapper *)

(** ** Lists updated in place *)

Lemma nth_error_set_nth_eq {A} (x y : A) l i :
  nth_error l i = Some y -> nth_error (set_nth i x l) i = Some x.
Proof.
  revert i. induction l as [| a l IH]; intros [| i] H; cbn in *;
    try discriminate; auto.
Qed.

Lemma nth_error_set_nth_ne {A} (x : A) l i j :
  i <> j -> nth_error (set_nth i x l) j = nth_error l j.
Proof.
  revert i j. induction l as [| a l IH]; intros [| i] [| j] H; cbn;
    try reflexivity; try congruence.
  apply IH. congruence.
Qed.





(** ** One step, read backwards *)

Lemma step_inv env i s s' :
  step env i s = Some s' ->
  exists g g',
    nth_error (goroutines s) i = Some g /\
    goroutines s' = set_nth i g' (goroutines s) /\
    ((exists op, g = Waiting op /\ g' = Holding op /\
        lock s = false /\ lock s' = true /\
        obj s' = obj s /\ world s' = world s) \/
     (exists op, g = Holding op /\
        g' = Leaving (fst (fst (invoke env (obj s) op (world s)))) /\
        lock s' = lock s /\
        obj s' = snd (fst (invoke env (obj s) op (world s))) /\
        world s' = snd (invoke env (obj s) op (world s))) \/
     (exists a, g = Leaving a /\ g' = Returned a /\
        lock s' = false /\ obj s' = obj s /\ world s' = world s)).
Proof.
  unfold step. intros H.
  destruct (nth_error (goroutines s) i) as [[op | op | a | a] |] eqn:Hi;
    try discriminate.
  - destruct (lock s) eqn:Hl; [discriminate |]. injection H as <-.
    exists (Waiting op), (Holding op).
    split; [reflexivity |]. split; [reflexivity |].
    left. exists op. now repeat split.
  - destruct (invoke env (obj s) op (world s)) as [[a t'] tr'] eqn:Hr.
    injection H as <-. cbn.
    exists (Holding op), (Leaving a).
    split; [reflexivity |]. split; [reflexivity |].
    right. left. exists op. rewrite Hr. now repeat split.
  - injection H as <-.
    exists (Leaving a), (Returned a).
    split; [reflexivity |]. split; [reflexivity |].
    right. right. exists a. now repeat split.
Qed.

Lemma step_other env i s s' j :
  step env i s = Some s' -> i <> j ->
  nth_error (goroutines s') j = nth_error (goroutines s) j.
Proof.
  intros H Hne. destruct (step_inv _ _ _ _ H) as [g [g' [_ [E _]]]].
  rewrite E. now apply nth_error_set_nth_ne.
Qed.


(** ** The mutex *)






(** ** How long a schedule can be *)







(** ** Racing against a finalized wrapper *)

Lemma pending_or_result g op a :
  pending_of g = Some op -> result_of g = Some a -> False.
Proof. destruct g; discriminate. Qed.

Lemma spawn_refused_inv t tr ops : refused_inv t tr ops (spawn t tr ops).
Proof.
  unfold refused_inv, spawn. cbn. repeat split.
  intros i g Hi. rewrite nth_error_map in Hi.
  destruct (nth_error ops i) as [op |]; [| discriminate].
  injection Hi as <-. exists op. split; [reflexivity | now left].
Qed.

Lemma step_refused_inv env t tr ops i s s' :
  finalized t = true ->
  refused_inv t tr ops s -> step env i s = Some s' -> refused_inv t tr ops s'.
Proof.
  intros Hfin [Ho [Hw Hg]] Hstep.
  destruct (step_inv _ _ _ _ Hstep) as [g [g' [Hi [E C]]]].
  destruct (Hg i g Hi) as [op0 [Hop0 Hst]].
  assert (Hi' : nth_error (goroutines s') i = Some g').
  { rewrite E. eapply nth_error_set_nth_eq; eauto. }
  assert (Hobj : obj s' = t /\ world s' = tr /\
                 (pending_of g' = Some op0 \/ result_of g' = Some (refusal op0))).
  { destruct C as [[op [-> [-> [_ [_ [-> ->]]]]]] |
                   [[op [-> [-> [_ [-> ->]]]]] | [a [-> [-> [_ [-> ->]]]]]]].
    - split; [exact Ho |]. split; [exact Hw |]. left.
      destruct Hst as [Hst | Hst]; [exact Hst | discriminate].
    - rewrite Ho, Hw, (invoke_refused env t op tr Hfin). cbn.
      split; [reflexivity |]. split; [reflexivity |]. right.
      destruct Hst as [Hst | Hst]; [| discriminate].
      injection Hst as ->. reflexivity.
    - split; [exact Ho |]. split; [exact Hw |]. right.
      destruct Hst as [Hst | Hst]; [discriminate | exact Hst]. }
  destruct Hobj as [Ho' [Hw' Hst']].
  split; [exact Ho' |]. split; [exact Hw' |].
  intros j gj Hj. destruct (Nat.eq_dec i j) as [<- | Hne].
  - rewrite Hi' in Hj. injection Hj as <-. now exists op0.
  - rewrite (step_other _ _ _ _ j Hstep Hne) in Hj. now apply Hg.
Qed.

Lemma run_schedule_refused_inv env t tr ops sched s s' :
  finalized t = true ->
  refused_inv t tr ops s -> run_schedule env sched s = Some s' ->
  refused_inv t tr ops s'.
Proof.
  intros Hfin. revert s. induction sched as [| i sched IH]; cbn; intros s Hinv H.
  - now injection H as <-.
  - destruct (step env i s) as [s1 |] eqn:Hs; [| discriminate].
    eauto using step_refused_inv.
Qed.

(** [X14] Goroutines that race on a wrapper which is already finalized
    cannot reach the driver or the store, in whatever order they get the
    mutex: the history and the wrapper stay as they were, and each call
    that has run holds the refusal of exactly the call it was started
    with. *)
Theorem finalized_under_any_schedule env sched t tr ops s :
  finalized t = true ->
  run_schedule env sched (spawn t tr ops) = Some s ->
  obj s = t /\ world s = tr /\
  forall i a, result_at s i = Some a ->
    exists op, nth_error ops i = Some op /\ a = refusal op.
Proof.
  intros Hfin Hrun.
  destruct (run_schedule_refused_inv env t tr ops sched _ _ Hfin
              (spawn_refused_inv t tr ops) Hrun) as [Ho [Hw Hg]].
  split; [exact Ho |]. split; [exact Hw |].
  intros i a Ha. unfold result_at in Ha.
  destruct (nth_error (goroutines s) i) as [g |] eqn:Hi; [| discriminate].
  destruct (Hg i g Hi) as [op [Hop [Hp | Hr]]].
  - destruct (pending_or_result g op a Hp Ha).
  - exists op. split; [exact Hop | congruence].
Qed.

Lemma finalized_under_any_schedule_witness :
  finalized txn_done = true /\
  run_schedule env_ok [2; 2; 2; 0; 0] (spawn txn_done [] three_calls) =
    Some {| lock := true; obj := txn_done; world := [];
            goroutines := [Leaving (RetPut (Some ErrClosed));
                           Waiting (CallCommit caller_ctx);
                           Returned (RetGet (None, Some ErrTxnFinalized))] |} /\
  exists op,
    nth_error three_calls 0 = Some op /\ RetPut (Some ErrClosed) = refusal op.
Proof.
  split; [reflexivity |]. split; [reflexivity |].
  apply (finalized_under_any_schedule env_ok [2; 2; 2; 0; 0] txn_done []
           three_calls
           {| lock := true; obj := txn_done; world := [];
              goroutines := [Leaving (RetPut (Some ErrClosed));
                             Waiting (CallCommit caller_ctx);
                             Returned (RetGet (None, Some ErrTxnFinalized))] |});
    reflexivity.
Defined.

(** ** Every schedule is a sequential run *)










